(** * Simulador de viabilidade de energia solar (app.py)

    A shallow embedding of the computation that [app.py] runs when the
    simulation form is submitted: sizing on the worst month, cost, net
    savings, the 26-year cash flow, the net present value and the two
    paybacks.

    Numbers.  The script computes with Python floats.  Here every float is
    an exact rational of [Q]: [==] is equality of fractions, and the
    theorems below are statements of exact arithmetic, with no rounding.
    [float('inf')] is a constructor of its own ([Infinito]).  The internal
    rate of return comes from [numpy_financial.irr], an eigenvalue root
    finder over floats that lives outside the script; it is not embedded.

    Rounding.  Where a comparison of the script is decided by the
    rounding of its doubles, the lines are embedded a second time in IEEE
    754 binary64 (the [_f64] definitions, over the Standard Library's
    [SpecFloat]), and the fact is stated there. *)

From Stdlib Require Import String PeanoNat QArith Qpower Qfield Lqa Lia Bool List Permutation.
From Stdlib Require Import SpecFloat.
Import ListNotations.

Local Open Scope Q_scope.

(** ** Comparisons and series *)

(** [x > y] on floats, as a boolean. *)
Definition Qgtb (x y : Q) : bool := negb (Qle_bool x y).

(** [Series.min()]: the smallest entry; an empty series has no minimum
    (pandas answers NaN, which fails every comparison). *)
Definition serie_min (s : list Q) : option Q :=
  match s with
  | [] => None
  | x :: xs => Some (fold_left (fun acc y => if Qgtb acc y then y else acc) xs x)
  end.

(** [Series.sum()] and [ndarray.sum()]. *)
Definition serie_sum (s : list Q) : Q := fold_left Qplus s 0.

(** ** Form inputs and upstream answers *)

Inductive conexao : Type := Trifasico | Bifasico | Monofasico.

(** [mapa_disponibilidade = {"Monofásico": 30, "Bifásico": 50, "Trifásico": 100}] *)
Definition mapa_disponibilidade (c : conexao) : Q :=
  match c with
  | Monofasico => 30
  | Bifasico => 50
  | Trifasico => 100
  end.

(** One row of [pvgis_data['outputs']['monthly']['fixed']]. *)
Record registro_mensal : Type := {
  month : nat;
  E_m : Q;
  H_i_m : Q
}.

Record entradas : Type := {
  cidade : string;
  consumo_mensal_kwh : Q;
  tarifa_energia : Q;
  custo_watt_pico_modulo : Q;
  custo_bos_watt_pico : Q;
  tipo_conexao : conexao;
  margem_geracao_percent : Q;
  inflacao_energia : Q;
  (* the TMA slider, in percent, before the division by 100 *)
  tma_percent : Q;
  (* what get_coordinates answered: (lat, lon), or (None, None) *)
  coordenadas : option (Q * Q);
  (* what get_pvgis_data answered: the monthly rows, or None *)
  pvgis_data : option (list registro_mensal)
}.

(** ** Key figures (lines 106-121) *)

Definition coluna_E_m (df : list registro_mensal) : list Q := map E_m df.

Definition pior_mes_geracao_por_kwp (df : list registro_mensal) : option Q :=
  serie_min (coluna_E_m df).

Definition consumo_desejado_kwh (consumo margem : Q) : Q :=
  consumo * (1 + margem / 100).

(** [consumo_desejado_kwh / pior_mes if pior_mes > 0 else 0] *)
Definition tamanho_sistema_kwp (df : list registro_mensal) (consumo margem : Q) : Q :=
  match pior_mes_geracao_por_kwp df with
  | Some pior =>
      if Qgtb pior 0 then consumo_desejado_kwh consumo margem / pior else 0
  | None => 0
  end.

Definition geracao_anual_estimada (df : list registro_mensal) (tamanho : Q) : Q :=
  serie_sum (coluna_E_m df) * tamanho.

Definition custo_total_watt_pico (modulo bos : Q) : Q := modulo + bos.

Definition custo_estimado_sistema (tamanho modulo bos : Q) : Q :=
  tamanho * custo_total_watt_pico modulo bos * 1000.

Definition custo_disponibilidade_mensal (c : conexao) (tarifa : Q) : Q :=
  mapa_disponibilidade c * tarifa.

Definition economia_anual_bruta (geracao tarifa : Q) : Q := geracao * tarifa.

Definition economia_anual_liquida (geracao tarifa : Q) (c : conexao) : Q :=
  economia_anual_bruta geracao tarifa - custo_disponibilidade_mensal c tarifa * 12.

(** A float that may be [float('inf')]. *)
Inductive anos : Type :=
| Anos (a : Q)
| Infinito.

(** [custo / economia if economia > 0 else float('inf')] *)
Definition payback_simples_anos (custo economia : Q) : anos :=
  if Qgtb economia 0 then Anos (custo / economia) else Infinito.

(** ** Environmental figures (lines 138-139) *)

Definition co2_evitado_ton (geracao : Q) : Q := geracao * 25 * (475 # 1000) / 1000.

Definition arvores_equivalentes (co2 : Q) : Q := co2 * (714 # 100).

(** ** Cash flow (lines 154-161) *)

Definition degradacao_paineis_anual : Q := 5 # 1000.

(** The factor applied to [economia_ano_a_ano] at the end of each turn. *)
Definition fator_anual (inflacao : Q) : Q :=
  (1 + inflacao / 100) * (1 - degradacao_paineis_anual).

(** One turn of [for ano in range(1, 26)]: the state is the list built so
    far and the running [economia_ano_a_ano]. *)
Definition passo_fluxo (inflacao : Q) (st : list Q * Q) (ano : nat) : list Q * Q :=
  (fst st ++ [snd st], snd st * fator_anual inflacao).

Definition fluxo_caixa (custo economia inflacao : Q) : list Q :=
  fst (fold_left (passo_fluxo inflacao) (seq 1 25) ([- custo], economia)).

(** ** Net present value and discounted payback (lines 163, 181-188) *)

(** [npf.npv(rate, values)]:
    [(values / (1 + rate) ** arange(len(values))).sum()].
    Division is [Qdiv], so the embedding follows numpy wherever
    [1 + rate] is not zero; the slider keeps the rate in 1%..20%. *)
Definition npv (rate : Q) (values : list Q) : Q :=
  serie_sum
    (map (fun tv : nat * Q => snd tv / (1 + rate) ^ Z.of_nat (fst tv))
         (combine (seq 0 (length values)) values)).

(** [[npf.npv(tma, fluxo[:i+1]) for i in range(len(fluxo))]] *)
Definition vpl_anual (tma : Q) (fluxo : list Q) : list Q :=
  map (fun i => npv tma (firstn (i + 1) fluxo)) (seq 0 (length fluxo)).

(** The text shown for the discounted payback: ["Não alcançado"] or
    [f"~{ano} anos"]. *)
Inductive payback_descontado : Type :=
| NaoAlcancado
| Aproximadamente (ano : nat).

(** The scan with [break]: the first [ano] whose value is [> 0]. *)
Fixpoint primeiro_positivo (ano : nat) (valores : list Q) : payback_descontado :=
  match valores with
  | [] => NaoAlcancado
  | vpl_valor :: resto =>
      if Qgtb vpl_valor 0 then Aproximadamente ano
      else primeiro_positivo (S ano) resto
  end.

Definition payback_descontado_ano (tma : Q) (fluxo : list Q) : payback_descontado :=
  primeiro_positivo 0 (vpl_anual tma fluxo).

(** ** The submit handler (lines 89-192) *)

Record resultados : Type := {
  r_tamanho_sistema_kwp : Q;
  r_geracao_anual_estimada : Q;
  r_custo_estimado_sistema : Q;
  r_economia_anual_liquida : Q;
  r_payback_simples_anos : anos;
  r_co2_evitado_ton : Q;
  r_arvores_equivalentes : Q;
  r_fluxo_caixa : list Q;
  r_vpl : Q;
  r_vpl_anual : list Q;
  r_payback_descontado_ano : payback_descontado
}.

(** What the page shows after a submit: one of the three messages, or the
    result tabs. *)
Inductive saida : Type :=
| AvisoPreencher
| ErroCoordenadas
| ErroPVGIS
| Resultados (r : resultados).

(** Python truthiness of the three tests. *)
Definition cidade_vazia (c : string) : bool :=
  match c with EmptyString => true | _ => false end.

Definition sem_latitude (c : option (Q * Q)) : bool :=
  match c with
  | None => true
  | Some (lat, _) => Qeq_bool lat 0
  end.

Definition calcular (e : entradas) (df : list registro_mensal) : resultados :=
  let tamanho := tamanho_sistema_kwp df (consumo_mensal_kwh e) (margem_geracao_percent e) in
  let geracao := geracao_anual_estimada df tamanho in
  let custo := custo_estimado_sistema tamanho (custo_watt_pico_modulo e) (custo_bos_watt_pico e) in
  let economia := economia_anual_liquida geracao (tarifa_energia e) (tipo_conexao e) in
  let tma_anual := tma_percent e / 100 in
  let fluxo := fluxo_caixa custo economia (inflacao_energia e) in
  let co2 := co2_evitado_ton geracao in
  {| r_tamanho_sistema_kwp := tamanho;
     r_geracao_anual_estimada := geracao;
     r_custo_estimado_sistema := custo;
     r_economia_anual_liquida := economia;
     r_payback_simples_anos := payback_simples_anos custo economia;
     r_co2_evitado_ton := co2;
     r_arvores_equivalentes := arvores_equivalentes co2;
     r_fluxo_caixa := fluxo;
     r_vpl := npv tma_anual fluxo;
     r_vpl_anual := vpl_anual tma_anual fluxo;
     r_payback_descontado_ano := payback_descontado_ano tma_anual fluxo |}.

Definition executar (e : entradas) : saida :=
  if cidade_vazia (cidade e) || Qeq_bool (consumo_mensal_kwh e) 0 then AvisoPreencher
  else if sem_latitude (coordenadas e) then ErroCoordenadas
  else match pvgis_data e with
       | None => ErroPVGIS
       | Some df => Resultados (calcular e df)
       end.

(** ** Worked inputs *)

Definition linha (m : nat) (e : Q) : registro_mensal :=
  {| month := m; E_m := e; H_i_m := 0 |}.

(** A profile whose worst month yields 100 kWh/kWp and whose year yields
    1485 kWh/kWp. *)
Definition perfil_inverno_100 : list registro_mensal :=
  [linha 1 126; linha 2 126; linha 3 126; linha 4 126; linha 5 126; linha 6 100;
   linha 7 125; linha 8 126; linha 9 126; linha 10 126; linha 11 126; linha 12 126].

(** A profile with no generation at all. *)
Definition perfil_sem_geracao : list registro_mensal :=
  map (fun m => linha m 0) (seq 1 12).

(** A profile whose worst month yields 90 kWh/kWp. *)
Definition perfil_inverno_90 : list registro_mensal :=
  [linha 1 140; linha 2 135; linha 3 130; linha 4 115; linha 5 100; linha 6 90;
   linha 7 95; linha 8 110; linha 9 120; linha 10 130; linha 11 138; linha 12 142].

Definition entradas_exemplo (df : list registro_mensal) (consumo tarifa modulo bos : Q)
    (c : conexao) (margem tma : Q) : entradas :=
  {| cidade := "Feira de Santana, BA";
     consumo_mensal_kwh := consumo;
     tarifa_energia := tarifa;
     custo_watt_pico_modulo := modulo;
     custo_bos_watt_pico := bos;
     tipo_conexao := c;
     margem_geracao_percent := margem;
     inflacao_energia := 7;
     tma_percent := tma;
     coordenadas := Some (- (1227 # 100), - (3896 # 100));
     pvgis_data := Some df |}.

(** Cost 2000, first-year savings 2250, rate 12.5%: the first year's
    discounted savings repay the outlay to the cent. *)
Definition entradas_vpl_zero : entradas :=
  entradas_exemplo perfil_inverno_100 100 2 (1 # 2) (3 # 2) Monofasico 0 (125 # 10).

(** The form's defaults over a profile that generates nothing. *)
Definition entradas_sem_geracao : entradas :=
  entradas_exemplo perfil_sem_geracao 350 (95 # 100) (12 # 10) (16 # 10) Trifasico 15 10.

(** The form's defaults over [perfil_inverno_90]. *)
Definition entradas_padrao : entradas :=
  entradas_exemplo perfil_inverno_90 350 (95 # 100) (12 # 10) (16 # 10) Trifasico 15 10.

(** The three messages that end a run without results. *)
Definition falha (s : saida) : bool :=
  match s with
  | Resultados _ => false
  | _ => true
  end.

(** The same submission with other positions of the two financial
    sliders. *)
Definition com_financeiros (e : entradas) (inflacao tma : Q) : entradas :=
  {| cidade := cidade e;
     consumo_mensal_kwh := consumo_mensal_kwh e;
     tarifa_energia := tarifa_energia e;
     custo_watt_pico_modulo := custo_watt_pico_modulo e;
     custo_bos_watt_pico := custo_bos_watt_pico e;
     tipo_conexao := tipo_conexao e;
     margem_geracao_percent := margem_geracao_percent e;
     inflacao_energia := inflacao;
     tma_percent := tma;
     coordenadas := coordenadas e;
     pvgis_data := pvgis_data e |}.

(** The discounted payback as the specification words it: the reported
    year is the first whose cumulative value is [>= 0], the years before
    it are negative, and nothing is reported only when every year of the
    horizon is negative. *)
Definition spec_payback_nao_negativo (tma : Q) (fluxo : list Q)
    (p : payback_descontado) : Prop :=
  match p with
  | Aproximadamente t =>
      (t <= 25)%nat /\
      0 <= npv tma (firstn (t + 1) fluxo) /\
      forall s, (s < t)%nat -> npv tma (firstn (s + 1) fluxo) < 0
  | NaoAlcancado =>
      forall t, (t <= 25)%nat -> npv tma (firstn (t + 1) fluxo) < 0
  end.

(** The savings entries of a cash flow: [x, x*f, x*f*f, ...]. *)
Fixpoint progressao (x f : Q) (n : nat) : list Q :=
  match n with
  | O => []
  | S n' => x :: progressao (x * f) f n'
  end.

(** ** The messages and labels of the result tabs *)

(** The message under the VPL figure (lines 171-172):
    [if vpl > 0: st.success(...) else: st.warning(...)]. *)
Inductive veredito : Type := Viavel | Atencao.

Definition veredito_vpl (vpl : Q) : veredito :=
  if Qgtb vpl 0 then Viavel else Atencao.

(** [meses_pt = {m+1: n for m, n in enumerate(["Jan", ..., "Dez"])}]
    (line 200), read as [Series.map] reads it: a key that is missing
    gives no label. *)
Definition nomes_meses : list string :=
  ["Jan"%string; "Fev"%string; "Mar"%string; "Abr"%string; "Mai"%string;
   "Jun"%string; "Jul"%string; "Ago"%string; "Set"%string; "Out"%string;
   "Nov"%string; "Dez"%string].

Definition meses_pt (m : nat) : option string :=
  match m with
  | O => None
  | S k => nth_error nomes_meses k
  end.

(** [df['mes'] = df['month'].map(meses_pt)] (line 201) *)
Definition coluna_mes (df : list registro_mensal) : list (option string) :=
  map (fun r => meses_pt (month r)) df.

(** ** The sizing in binary64 (lines 111-113 and 199) *)










(** * Properties *)

(** ** Comparisons *)

Lemma Qgtb_true (x y : Q) : Qgtb x y = true <-> y < x.
Proof.
  unfold Qgtb. rewrite negb_true_iff, <- not_true_iff_false, Qle_bool_iff.
  split; [apply Qnot_le_lt | apply Qlt_not_le].
Qed.

Lemma Qgtb_false (x y : Q) : Qgtb x y = false <-> x <= y.
Proof.
  unfold Qgtb. rewrite negb_false_iff. apply Qle_bool_iff.
Qed.

(** Case analysis on a test [x > y] met in the goal. *)
Ltac caso_gt x y :=
  let H := fresh "Hgt" in
  destruct (Qgtb x y) eqn:H;
  [apply Qgtb_true in H | apply Qgtb_false in H].

(** ** Series *)

Section Series.

Let menor (acc y : Q) : Q := if Qgtb acc y then y else acc.

Lemma fold_menor_spec (xs : list Q) : forall x,
  let m := fold_left menor xs x in
  (m = x \/ In m xs) /\ m <= x /\ forall y, In y xs -> m <= y.
Proof.
  induction xs as [|z zs IH]; intros x; simpl.
  - repeat split; [now left | apply Qle_refl | contradiction].
  - destruct (IH (menor x z)) as (Hin & Hle & Hall).
    assert (Hm : (menor x z = x \/ menor x z = z) /\ menor x z <= x /\ menor x z <= z).
    { unfold menor. caso_gt x z; repeat split; auto; lra. }
    destruct Hm as (Hsel & Hx & Hz).
    repeat split.
    + destruct Hin as [Hin|Hin]; [|now right; right].
      rewrite Hin. destruct Hsel as [->| ->]; [now left | now right; left].
    + lra.
    + intros y [<-|Hy]; [lra | now apply Hall].
Qed.

Lemma serie_min_spec (s : list Q) (m : Q) :
  serie_min s = Some m -> In m s /\ forall y, In y s -> m <= y.
Proof.
  destruct s as [|x xs]; simpl; [discriminate|].
  intros [= <-]. destruct (fold_menor_spec xs x) as (Hin & Hle & Hall).
  split.
  - destruct Hin as [Hin|Hin]; [left; symmetry; exact Hin | right; exact Hin].
  - intros y [<-|Hy]; [exact Hle | now apply Hall].
Qed.

Lemma serie_min_some (s : list Q) :
  s <> [] -> exists m, serie_min s = Some m.
Proof.
  destruct s as [|x xs]; [congruence | intros _; simpl; eauto].
Qed.

Lemma fold_plus_acc (s : list Q) : forall a,
  fold_left Qplus s a == a + serie_sum s.
Proof.
  unfold serie_sum. induction s as [|x xs IH]; intros a; simpl.
  - ring.
  - rewrite (IH (a + x)), (IH (0 + x)). ring.
Qed.

Lemma serie_sum_cons (x : Q) (s : list Q) :
  serie_sum (x :: s) == x + serie_sum s.
Proof.
  unfold serie_sum at 1. simpl. rewrite fold_plus_acc. ring.
Qed.

Lemma serie_sum_app (s1 s2 : list Q) :
  serie_sum (s1 ++ s2) == serie_sum s1 + serie_sum s2.
Proof.
  induction s1 as [|x xs IH]; simpl.
  - unfold serie_sum at 2. simpl. ring.
  - rewrite !serie_sum_cons, IH. ring.
Qed.

(** Two series with equal entries, position by position, have equal sums. *)
Lemma serie_sum_ext (s1 s2 : list Q) :
  Forall2 Qeq s1 s2 -> serie_sum s1 == serie_sum s2.
Proof.
  induction 1 as [|x y xs ys Hxy _ IH].
  - reflexivity.
  - rewrite !serie_sum_cons, Hxy, IH. reflexivity.
Qed.

End Series.

(** ** The cash-flow loop *)

Section Fluxo.

Variable inflacao : Q.

Let f := fator_anual inflacao.

(** The loop, started at any year and in any state, appends the
    progression of the running value. *)
Lemma laco_fluxo (n : nat) : forall (a : nat) (feito : list Q) (x : Q),
  fst (fold_left (passo_fluxo inflacao) (seq a n) (feito, x))
  = feito ++ progressao x f n.
Proof.
  induction n as [|n IH]; intros a feito x; cbn [seq fold_left].
  - cbn [fst progressao]. now rewrite app_nil_r.
  - change (passo_fluxo inflacao (feito, x) a) with (feito ++ [x], x * f).
    rewrite IH. cbn [progressao]. now rewrite <- app_assoc.
Qed.

Lemma fluxo_caixa_forma (custo economia : Q) :
  fluxo_caixa custo economia inflacao = - custo :: progressao economia f 25.
Proof.
  unfold fluxo_caixa. now rewrite laco_fluxo.
Qed.

Lemma progressao_length (n : nat) : forall x, length (progressao x f n) = n.
Proof.
  induction n as [|n IH]; intros x; simpl; [reflexivity | now rewrite IH].
Qed.

(** Each entry is the one before it times the yearly factor. *)
Lemma progressao_passo (k : nat) : forall (n : nat) (x : Q),
  (k + 1 < n)%nat ->
  nth (k + 1) (progressao x f n) 0 = nth k (progressao x f n) 0 * f.
Proof.
  induction k as [|k IH]; intros n x Hk.
  - destruct n as [|[|n]]; [lia | lia | reflexivity].
  - destruct n as [|n]; [lia|].
    change (nth (k + 1) (progressao (x * f) f n) 0
            = nth k (progressao (x * f) f n) 0 * f).
    apply IH. lia.
Qed.

(** With a positive factor every entry keeps the sign of the first. *)
Lemma progressao_sinal (n : nat) : forall (x : Q) (k : nat),
  0 < f -> (k < n)%nat ->
  (0 < x -> 0 < nth k (progressao x f n) 0) /\
  (x < 0 -> nth k (progressao x f n) 0 < 0) /\
  (x == 0 -> nth k (progressao x f n) 0 == 0).
Proof.
  induction n as [|n IH]; intros x k Hf Hk; [lia|].
  destruct k as [|k]; simpl.
  - repeat split; auto.
  - destruct (IH (x * f) k Hf ltac:(lia)) as (Hp & Hn & Hz).
    repeat split; intros Hx.
    + apply Hp. nra.
    + apply Hn. nra.
    + apply Hz. rewrite Hx. ring.
Qed.

End Fluxo.

Lemma fator_anual_pos (inflacao : Q) : 0 <= inflacao -> 0 < fator_anual inflacao.
Proof.
  intros Hi. unfold fator_anual, degradacao_paineis_anual.
  assert (H1 : 0 < 1 + inflacao / 100).
  { assert (0 <= inflacao / 100) by (apply Qle_shift_div_l; lra). lra. }
  assert (H2 : 0 < 1 - (5 # 1000)) by reflexivity.
  nra.
Qed.

(** ** Net present value *)

Section VPL.

Variable rate : Q.

Let termo (tv : nat * Q) : Q := snd tv / (1 + rate) ^ Z.of_nat (fst tv).

(** At a rate of zero every discounted term is the entry itself. *)
Lemma termos_sem_desconto (values : list Q) : forall a,
  rate == 0 ->
  Forall2 Qeq (map termo (combine (seq a (length values)) values)) values.
Proof.
  induction values as [|v vs IH]; intros a Hr; simpl.
  - constructor.
  - constructor; [|now apply IH].
    unfold termo; simpl fst; simpl snd.
    assert (H1 : 1 + rate == 1) by (rewrite Hr; ring).
    rewrite H1, Qpower_1. field.
Qed.

Lemma vpl_anual_length (fluxo : list Q) :
  length (vpl_anual rate fluxo) = length fluxo.
Proof.
  unfold vpl_anual. now rewrite length_map, length_seq.
Qed.

(** Entry [t] of [vpl_anual] is the value of the years [0..t]. *)
Lemma vpl_anual_nth (fluxo : list Q) (t : nat) :
  (t < length fluxo)%nat ->
  nth t (vpl_anual rate fluxo) 0 = npv rate (firstn (t + 1) fluxo).
Proof.
  intros Ht. unfold vpl_anual.
  rewrite (nth_indep _ 0 (npv rate (firstn (0 + 1) fluxo)))
    by now rewrite length_map, length_seq.
  rewrite (map_nth (fun i => npv rate (firstn (i + 1) fluxo))).
  now rewrite seq_nth.
Qed.

End VPL.

(** ** The scan for the discounted payback *)

Lemma primeiro_positivo_spec (valores : list Q) : forall a,
  match primeiro_positivo a valores with
  | Aproximadamente t =>
      (a <= t)%nat /\ (t - a < length valores)%nat /\
      0 < nth (t - a) valores 0 /\
      forall s, (s < t - a)%nat -> nth s valores 0 <= 0
  | NaoAlcancado =>
      forall s, (s < length valores)%nat -> nth s valores 0 <= 0
  end.
Proof.
  induction valores as [|v vs IH]; intros a; simpl.
  - intros s Hs; lia.
  - caso_gt v 0.
    + replace (a - a)%nat with 0%nat by lia.
      repeat split; [lia | lia | exact Hgt | intros s Hs; lia].
    + specialize (IH (S a)).
      destruct (primeiro_positivo (S a) vs) as [|t].
      * intros [|s] Hs; [exact Hgt | apply IH; lia].
      * destruct IH as (Ha & Hlen & Hpos & Hantes).
        replace (t - a)%nat with (S (t - S a)) by lia.
        repeat split; [lia | lia | exact Hpos |].
        intros [|s] Hs; [exact Hgt | apply Hantes; lia].
Qed.

Lemma payback_descontado_ano_spec (tma : Q) (fluxo : list Q) :
  match payback_descontado_ano tma fluxo with
  | Aproximadamente t =>
      (t < length fluxo)%nat /\
      0 < npv tma (firstn (t + 1) fluxo) /\
      forall s, (s < t)%nat -> npv tma (firstn (s + 1) fluxo) <= 0
  | NaoAlcancado =>
      forall t, (t < length fluxo)%nat -> npv tma (firstn (t + 1) fluxo) <= 0
  end.
Proof.
  unfold payback_descontado_ano.
  pose proof (primeiro_positivo_spec (vpl_anual tma fluxo) 0) as H.
  destruct (primeiro_positivo 0 (vpl_anual tma fluxo)) as [|t].
  - intros t Ht. rewrite <- vpl_anual_nth by exact Ht.
    apply H. now rewrite vpl_anual_length.
  - rewrite Nat.sub_0_r, vpl_anual_length in H.
    destruct H as (_ & Hlen & Hpos & Hantes).
    repeat split; [exact Hlen | now rewrite <- vpl_anual_nth |].
    intros s Hs. rewrite <- vpl_anual_nth by lia. now apply Hantes.
Qed.

(** * The claims *)

(** ** C1: discounted payback *)

(** C1, as stated, fails.  With an outlay of 2000, first-year savings of
    2250 and a rate of 12.5%, the cumulative value of the years 0..1 is
    exactly 0: year 1 is the smallest year with a non-negative cumulative
    value.  The scan tests [vpl_valor > 0], passes over year 1 and reports
    year 2, whose previous year is not negative. *)
Lemma payback_descontado_salta_vpl_nulo :
  exists r : resultados,
    executar entradas_vpl_zero = Resultados r /\
    r_custo_estimado_sistema r == 2000 /\
    r_economia_anual_liquida r == 2250 /\
    npv (125 # 1000) (firstn 1 (r_fluxo_caixa r)) < 0 /\
    npv (125 # 1000) (firstn 2 (r_fluxo_caixa r)) == 0 /\
    r_payback_descontado_ano r = Aproximadamente 2 /\
    ~ spec_payback_nao_negativo (125 # 1000) (r_fluxo_caixa r)
        (r_payback_descontado_ano r).
Proof.
  exists (calcular entradas_vpl_zero perfil_inverno_100).
  unfold calcular;
    cbn [r_custo_estimado_sistema r_economia_anual_liquida r_fluxo_caixa
         r_payback_descontado_ano].
  set (fluxo := fluxo_caixa _ _ _).
  assert (H1 : npv (125 # 1000) (firstn 2 fluxo) == 0) by (lazy; reflexivity).
  assert (Hp : payback_descontado_ano (tma_percent entradas_vpl_zero / 100) fluxo
               = Aproximadamente 2) by (lazy; reflexivity).
  split; [reflexivity|].
  split; [lazy; reflexivity|].
  split; [lazy; reflexivity|].
  split; [lazy; reflexivity|].
  split; [exact H1|].
  split; [exact Hp|].
  rewrite Hp. intros (_ & _ & Hantes).
  specialize (Hantes 1%nat ltac:(lia)).
  change (1 + 1)%nat with 2%nat in Hantes.
  rewrite H1 in Hantes. discriminate Hantes.
Qed.

(** C1 (amended): the reported year is the smallest [t] in 0..25 whose
    cumulative discounted value over the years [0..t] is strictly
    positive; every earlier year has a cumulative value [<= 0]; and
    "Não alcançado" is shown exactly when no year of the horizon has a
    strictly positive cumulative value. *)
Theorem payback_descontado_primeiro_positivo (tma custo economia inflacao : Q) :
  let fluxo := fluxo_caixa custo economia inflacao in
  match payback_descontado_ano tma fluxo with
  | Aproximadamente t =>
      (t <= 25)%nat /\
      0 < npv tma (firstn (t + 1) fluxo) /\
      forall s, (s < t)%nat -> npv tma (firstn (s + 1) fluxo) <= 0
  | NaoAlcancado =>
      forall t, (t <= 25)%nat -> npv tma (firstn (t + 1) fluxo) <= 0
  end.
Proof.
  intros fluxo.
  assert (Hlen : length fluxo = 26%nat).
  { unfold fluxo. rewrite fluxo_caixa_forma. cbn [length].
    now rewrite progressao_length. }
  pose proof (payback_descontado_ano_spec tma fluxo) as H.
  destruct (payback_descontado_ano tma fluxo) as [|t].
  - intros t Ht. apply H. lia.
  - destruct H as (Ht & Hpos & Hantes). repeat split; [lia | exact Hpos | exact Hantes].
Qed.

Lemma payback_descontado_primeiro_positivo_witness :
  let fluxo := fluxo_caixa 2000 2250 7 in
  payback_descontado_ano (125 # 1000) fluxo = Aproximadamente 2 /\
  (2 <= 25)%nat /\
  0 < npv (125 # 1000) (firstn (2 + 1) fluxo) /\
  forall s, (s < 2)%nat -> npv (125 # 1000) (firstn (s + 1) fluxo) <= 0.
Proof.
  intros fluxo.
  assert (Hp : payback_descontado_ano (125 # 1000) fluxo = Aproximadamente 2)
    by (lazy; reflexivity).
  split; [exact Hp|].
  generalize (payback_descontado_primeiro_positivo (125 # 1000) 2000 2250 7).
  cbv zeta. fold fluxo. rewrite Hp. exact (fun H => H).
Defined.

(** ** C2: a worst month that generates nothing *)

(** C2, as stated, fails.  Over a profile whose worst month yields 0 the
    run ends in no failure: it goes on to the result tabs, with the cash
    flow and the paybacks computed. *)
Lemma sem_geracao_nao_falha :
  pior_mes_geracao_por_kwp perfil_sem_geracao = Some 0 /\
  falha (executar entradas_sem_geracao) = false /\
  exists r : resultados,
    executar entradas_sem_geracao = Resultados r /\
    r_tamanho_sistema_kwp r = 0 /\
    r_economia_anual_liquida r == - (1140) /\
    r_payback_simples_anos r = Infinito /\
    length (r_fluxo_caixa r) = 26%nat /\
    r_payback_descontado_ano r = NaoAlcancado.
Proof.
  split; [reflexivity|]. split; [reflexivity|].
  exists (calcular entradas_sem_geracao perfil_sem_geracao).
  split; [reflexivity|].
  repeat split; vm_compute; reflexivity.
Qed.

(** ** Sizing on the worst month *)

Section Dimensionamento.

Variables (df : list registro_mensal) (consumo margem pior : Q).

Hypothesis Hpior : pior_mes_geracao_por_kwp df = Some pior.

Lemma pior_mes_minimo :
  In pior (coluna_E_m df) /\ forall x, In x (coluna_E_m df) -> pior <= x.
Proof.
  apply serie_min_spec. exact Hpior.
Qed.

Lemma tamanho_pior_positivo :
  0 < pior ->
  tamanho_sistema_kwp df consumo margem = consumo * (1 + margem / 100) / pior.
Proof.
  intros Hpos. unfold tamanho_sistema_kwp. rewrite Hpior.
  caso_gt pior 0; [reflexivity | lra].
Qed.

Lemma tamanho_pior_nao_positivo :
  pior <= 0 -> tamanho_sistema_kwp df consumo margem = 0.
Proof.
  intros Hle. unfold tamanho_sistema_kwp. rewrite Hpior.
  caso_gt pior 0; [lra | reflexivity].
Qed.

Lemma consumo_desejado_pos :
  0 < consumo -> 0 <= margem -> 0 < consumo * (1 + margem / 100).
Proof.
  intros Hc Hm.
  assert (0 <= margem / 100) by (apply Qle_shift_div_l; lra).
  nra.
Qed.

Lemma consumo_desejado_nonneg :
  0 <= consumo -> 0 <= margem -> 0 <= consumo * (1 + margem / 100).
Proof.
  intros Hc Hm.
  assert (0 <= margem / 100) by (apply Qle_shift_div_l; lra).
  nra.
Qed.

End Dimensionamento.

Lemma perfil_12_tem_pior_mes (df : list registro_mensal) :
  length df = 12%nat -> exists pior, pior_mes_geracao_por_kwp df = Some pior.
Proof.
  intros H12. apply serie_min_some. unfold coluna_E_m.
  destruct df; [discriminate | discriminate].
Qed.

(** C2 (amended): a worst month that yields [<= 0] ends the run in no
    failure.  The recommended size is 0 and the run goes on to the
    results: generation 0, cost 0, net savings of minus twelve
    availability charges, and the 26-entry cash flow with entry 0 equal
    to 0. *)
Theorem pior_mes_nao_positivo_prossegue
    (e : entradas) (df : list registro_mensal) (pior : Q) :
  cidade_vazia (cidade e) || Qeq_bool (consumo_mensal_kwh e) 0 = false ->
  sem_latitude (coordenadas e) = false ->
  pvgis_data e = Some df ->
  pior_mes_geracao_por_kwp df = Some pior ->
  pior <= 0 ->
  exists r : resultados,
    executar e = Resultados r /\
    r_tamanho_sistema_kwp r = 0 /\
    r_geracao_anual_estimada r == 0 /\
    r_custo_estimado_sistema r == 0 /\
    r_economia_anual_liquida r
      == - (custo_disponibilidade_mensal (tipo_conexao e) (tarifa_energia e) * 12) /\
    length (r_fluxo_caixa r) = 26%nat /\
    nth 0 (r_fluxo_caixa r) 0 == 0.
Proof.
  intros Hform Hlat Hpv Hpior Hle.
  exists (calcular e df). split.
  { unfold executar. now rewrite Hform, Hlat, Hpv. }
  unfold calcular;
    cbn [r_tamanho_sistema_kwp r_geracao_anual_estimada r_custo_estimado_sistema
         r_economia_anual_liquida r_fluxo_caixa].
  rewrite (tamanho_pior_nao_positivo df _ _ pior Hpior Hle).
  rewrite fluxo_caixa_forma. cbn [length nth]. rewrite progressao_length.
  unfold geracao_anual_estimada, custo_estimado_sistema, economia_anual_liquida,
    economia_anual_bruta.
  repeat split; ring.
Qed.

Lemma pior_mes_nao_positivo_prossegue_witness :
  exists r : resultados,
    executar entradas_sem_geracao = Resultados r /\
    r_tamanho_sistema_kwp r = 0 /\
    r_geracao_anual_estimada r == 0 /\
    r_custo_estimado_sistema r == 0 /\
    r_economia_anual_liquida r
      == - (custo_disponibilidade_mensal Trifasico (95 # 100) * 12) /\
    length (r_fluxo_caixa r) = 26%nat /\
    nth 0 (r_fluxo_caixa r) 0 == 0.
Proof.
  apply (pior_mes_nao_positivo_prossegue entradas_sem_geracao perfil_sem_geracao 0).
  - reflexivity.
  - reflexivity.
  - reflexivity.
  - reflexivity.
  - discriminate.
Defined.

(** ** C4: the recommended size *)

(** C4: over a 12-month profile the worst month exists and is the least
    generation per kWp; the recommended size is
    [consumo * (1 + margem/100) / pior] when the worst month is positive
    and 0 otherwise.  For a positive consumption and a non-negative margin
    the size is never negative, and it is 0 exactly when the worst month
    is [<= 0].  With consumption 350, margin 15 and worst month 90 the
    size is 402.5/90, which is 4.47 to two decimals. *)
Theorem tamanho_sistema_pior_mes (df : list registro_mensal) (consumo margem : Q) :
  length df = 12%nat ->
  exists pior : Q,
    pior_mes_geracao_por_kwp df = Some pior /\
    In pior (coluna_E_m df) /\
    (forall x, In x (coluna_E_m df) -> pior <= x) /\
    (0 < pior ->
       tamanho_sistema_kwp df consumo margem = consumo * (1 + margem / 100) / pior) /\
    (pior <= 0 -> tamanho_sistema_kwp df consumo margem = 0) /\
    (0 < consumo -> 0 <= margem ->
       0 <= tamanho_sistema_kwp df consumo margem /\
       (tamanho_sistema_kwp df consumo margem == 0 <-> pior <= 0)) /\
    (consumo == 350 -> margem == 15 -> pior == 90 ->
       tamanho_sistema_kwp df consumo margem == (4025 # 10) / 90 /\
       (447 # 100) - (5 # 1000) < tamanho_sistema_kwp df consumo margem
         < (447 # 100) + (5 # 1000)).
Proof.
  intros H12.
  destruct (perfil_12_tem_pior_mes df H12) as [pior Hpior].
  exists pior.
  destruct (pior_mes_minimo df pior Hpior) as [Hin Hmin].
  split; [exact Hpior|]. split; [exact Hin|]. split; [exact Hmin|].
  split; [apply tamanho_pior_positivo; exact Hpior|].
  split; [apply tamanho_pior_nao_positivo; exact Hpior|].
  split.
  - intros Hc Hm.
    pose proof (consumo_desejado_pos consumo margem Hc Hm) as Halvo.
    destruct (Qlt_le_dec 0 pior) as [Hpos|Hle].
    + rewrite (tamanho_pior_positivo df consumo margem pior Hpior Hpos).
      assert (Hk : 0 < consumo * (1 + margem / 100) / pior)
        by (apply Qlt_shift_div_l; [exact Hpos | lra]).
      split; [lra|]. split; intros H; lra.
    + rewrite (tamanho_pior_nao_positivo df consumo margem pior Hpior Hle).
      split; [lra|]. split; intros _; [exact Hle | reflexivity].
  - intros Hc Hm Hp.
    assert (Hpos : 0 < pior) by (rewrite Hp; reflexivity).
    rewrite (tamanho_pior_positivo df consumo margem pior Hpior Hpos).
    assert (Hv : consumo * (1 + margem / 100) / pior == (4025 # 10) / 90).
    { rewrite Hc, Hm, Hp. reflexivity. }
    rewrite Hv. repeat split.
Qed.

Lemma tamanho_sistema_pior_mes_witness :
  length perfil_inverno_90 = 12%nat /\
  pior_mes_geracao_por_kwp perfil_inverno_90 = Some 90 /\
  0 < 350 /\ 0 <= 15 /\
  0 <= tamanho_sistema_kwp perfil_inverno_90 350 15 /\
  (447 # 100) - (5 # 1000) < tamanho_sistema_kwp perfil_inverno_90 350 15
    < (447 # 100) + (5 # 1000).
Proof.
  destruct (tamanho_sistema_pior_mes perfil_inverno_90 350 15 eq_refl)
    as (pior & Hpior & _ & _ & _ & _ & Hval & Hcen).
  assert (Hp : pior = 90) by (vm_compute in Hpior; congruence).
  subst pior.
  split; [reflexivity|]. split; [exact Hpior|].
  split; [reflexivity|]. split; [discriminate|].
  split.
  - apply Hval; [reflexivity | discriminate].
  - apply Hcen; reflexivity.
Defined.

(** ** C8: every month against the target *)

(** In exact arithmetic: with a positive worst month and a target that is
    not negative, every entry of the generation column, times the size,
    reaches the target. *)
Lemma geracao_mensal_cobre
    (df : list registro_mensal) (consumo margem pior : Q) :
  pior_mes_geracao_por_kwp df = Some pior ->
  0 < pior ->
  0 <= consumo * (1 + margem / 100) ->
  forall x, In x (coluna_E_m df) ->
    consumo * (1 + margem / 100) <= x * tamanho_sistema_kwp df consumo margem.
Proof.
  intros Hpior Hpos Halvo x Hx.
  destruct (pior_mes_minimo df pior Hpior) as [_ Hmin].
  rewrite (tamanho_pior_positivo df consumo margem pior Hpior Hpos).
  set (alvo := consumo * (1 + margem / 100)) in *.
  assert (Hk : 0 <= alvo / pior) by (apply Qle_shift_div_l; [exact Hpos | lra]).
  assert (Hkp : alvo / pior * pior == alvo) by (field; lra).
  specialize (Hmin x Hx). nra.
Qed.

(** The size is never negative for a target that is not negative. *)
Lemma tamanho_nao_negativo (df : list registro_mensal) (consumo margem : Q) :
  0 <= consumo * (1 + margem / 100) ->
  0 <= tamanho_sistema_kwp df consumo margem.
Proof.
  intros Halvo. unfold tamanho_sistema_kwp, consumo_desejado_kwh.
  destruct (pior_mes_geracao_por_kwp df) as [pior|]; [|lra].
  caso_gt pior 0; [|lra].
  apply Qle_shift_div_l; [exact Hgt | lra].
Qed.




(** ** C5: the cash-flow series *)

(** Entry [k] of a progression is the first entry times the [k]-th power
    of the factor: nothing caps the growth. *)
Lemma progressao_potencia (f : Q) (n : nat) : forall (x : Q) (k : nat),
  (k < n)%nat -> nth k (progressao x f n) 0 == x * f ^ Z.of_nat k.
Proof.
  induction n as [|n IH]; intros x k Hk; [lia|].
  destruct k as [|k]; cbn [progressao nth].
  - simpl. ring.
  - rewrite IH by lia.
    replace (Z.of_nat (S k)) with (Z.of_nat k + 1)%Z by lia.
    rewrite Qpower_plus' by lia. simpl (f ^ 1). ring.
Qed.

(** C5: the cash flow has exactly 26 entries; entry 0 is minus the
    installation cost; entry 1 is the net annual savings; each entry
    [k+1], for [k] in 1..24, is entry [k] times
    [(1 + inflacao/100) * (1 - degradacao)], where the degradation is the
    constant 0.5%; and entry [k] is the savings times the [(k-1)]-th power
    of that factor, with no cap. *)
Theorem fluxo_caixa_26_entradas (custo economia inflacao : Q) :
  let fluxo := fluxo_caixa custo economia inflacao in
  length fluxo = 26%nat /\
  nth 0 fluxo 0 = - custo /\
  nth 1 fluxo 0 = economia /\
  degradacao_paineis_anual == (5 # 10) / 100 /\
  (forall k, (1 <= k <= 24)%nat ->
     nth (k + 1) fluxo 0
     = nth k fluxo 0 * ((1 + inflacao / 100) * (1 - degradacao_paineis_anual))) /\
  (forall k, (1 <= k <= 25)%nat ->
     nth k fluxo 0
     == economia
        * ((1 + inflacao / 100) * (1 - degradacao_paineis_anual)) ^ Z.of_nat (k - 1)).
Proof.
  intros fluxo. unfold fluxo. rewrite fluxo_caixa_forma.
  split; [cbn [length]; now rewrite progressao_length|].
  split; [reflexivity|]. split; [reflexivity|]. split; [reflexivity|].
  split.
  - intros k Hk. destruct k as [|k]; [lia|].
    change (nth (k + 1) (progressao economia (fator_anual inflacao) 25) 0
            = nth k (progressao economia (fator_anual inflacao) 25) 0
              * fator_anual inflacao).
    apply progressao_passo. lia.
  - intros k Hk. destruct k as [|k]; [lia|].
    cbn [nth]. replace (S k - 1)%nat with k by lia.
    apply (progressao_potencia (fator_anual inflacao)). lia.
Qed.

Lemma fluxo_caixa_26_entradas_witness :
  (1 <= 3 <= 24)%nat /\
  nth (3 + 1) (fluxo_caixa 2000 2250 7) 0
  = nth 3 (fluxo_caixa 2000 2250 7) 0
    * ((1 + 7 / 100) * (1 - degradacao_paineis_anual)).
Proof.
  split; [lia|].
  apply (fluxo_caixa_26_entradas 2000 2250 7). lia.
Defined.

(** ** C10: the savings entries keep one sign *)

(** C10: for an inflation that is not negative the yearly factor is
    strictly positive, so the 25 savings entries (indices 1..25) have the
    sign of the net annual savings: all positive, all negative or all
    zero. *)
Theorem economias_mantem_sinal (custo economia inflacao : Q) :
  0 <= inflacao ->
  0 < (1 + inflacao / 100) * (1 - degradacao_paineis_anual) /\
  forall k, (1 <= k <= 25)%nat ->
    (0 < economia -> 0 < nth k (fluxo_caixa custo economia inflacao) 0) /\
    (economia < 0 -> nth k (fluxo_caixa custo economia inflacao) 0 < 0) /\
    (economia == 0 -> nth k (fluxo_caixa custo economia inflacao) 0 == 0).
Proof.
  intros Hi. pose proof (fator_anual_pos inflacao Hi) as Hf.
  split; [exact Hf|].
  intros k Hk. rewrite fluxo_caixa_forma.
  destruct k as [|k]; [lia|]. cbn [nth].
  apply progressao_sinal; [exact Hf | lia].
Qed.

Lemma economias_mantem_sinal_witness :
  0 <= 7 /\ (1 <= 25 <= 25)%nat /\ 0 < 2250 /\
  0 < nth 25 (fluxo_caixa 2000 2250 7) 0.
Proof.
  assert (Hi : 0 <= 7) by discriminate.
  split; [exact Hi|]. split; [lia|]. split; [reflexivity|].
  apply (economias_mantem_sinal 2000 2250 7 Hi); [lia | reflexivity].
Defined.

(** ** C9: no discount *)

(** C9: at a discount rate of 0 the net present value is the plain sum of
    the entries; in particular for the 26 entries of the cash flow. *)
Theorem vpl_taxa_zero_e_soma :
  (forall values : list Q, npv 0 values == serie_sum values) /\
  (forall custo economia inflacao : Q,
     length (fluxo_caixa custo economia inflacao) = 26%nat /\
     npv 0 (fluxo_caixa custo economia inflacao)
     == serie_sum (fluxo_caixa custo economia inflacao)).
Proof.
  assert (H : forall values : list Q, npv 0 values == serie_sum values).
  { intros values. unfold npv. apply serie_sum_ext.
    apply (termos_sem_desconto 0 values 0%nat). reflexivity. }
  split; [exact H|].
  intros custo economia inflacao. split; [|apply H].
  rewrite fluxo_caixa_forma. cbn [length]. now rewrite progressao_length.
Qed.

(** ** C6: net annual savings *)

(** A run whose form is filled and whose two upstream answers arrived
    ends in the result tabs, whatever the figures are. *)
Lemma executar_resultados (e : entradas) (df : list registro_mensal) :
  cidade_vazia (cidade e) || Qeq_bool (consumo_mensal_kwh e) 0 = false ->
  sem_latitude (coordenadas e) = false ->
  pvgis_data e = Some df ->
  executar e = Resultados (calcular e df).
Proof.
  intros Hform Hlat Hpv. unfold executar. now rewrite Hform, Hlat, Hpv.
Qed.

(** C6: the availability table is Monofásico 30, Bifásico 50, Trifásico
    100 kWh; the monthly availability cost is that energy times the
    tariff; the net annual savings are the annual generation times the
    tariff minus 12 monthly availability costs.  The subtraction has no
    guard: the savings are negative exactly when the generation is worth
    less than the 12 charges, and the run then still ends in the result
    tabs with that negative figure. *)
Theorem economia_liquida_desconta_disponibilidade
    (e : entradas) (df : list registro_mensal) :
  cidade_vazia (cidade e) || Qeq_bool (consumo_mensal_kwh e) 0 = false ->
  sem_latitude (coordenadas e) = false ->
  pvgis_data e = Some df ->
  mapa_disponibilidade Monofasico = 30 /\
  mapa_disponibilidade Bifasico = 50 /\
  mapa_disponibilidade Trifasico = 100 /\
  exists r : resultados,
    executar e = Resultados r /\
    r_economia_anual_liquida r
    == r_geracao_anual_estimada r * tarifa_energia e
       - 12 * (mapa_disponibilidade (tipo_conexao e) * tarifa_energia e) /\
    (r_economia_anual_liquida r < 0 <->
     r_geracao_anual_estimada r * tarifa_energia e
     < 12 * (mapa_disponibilidade (tipo_conexao e) * tarifa_energia e)).
Proof.
  intros Hform Hlat Hpv.
  split; [reflexivity|]. split; [reflexivity|]. split; [reflexivity|].
  exists (calcular e df).
  split; [now apply executar_resultados|].
  unfold calcular; cbn [r_economia_anual_liquida r_geracao_anual_estimada].
  set (geracao := geracao_anual_estimada _ _).
  unfold economia_anual_liquida, economia_anual_bruta, custo_disponibilidade_mensal.
  split; [ring|]. split; intros H; lra.
Qed.

Lemma economia_liquida_desconta_disponibilidade_witness :
  exists r : resultados,
    executar entradas_sem_geracao = Resultados r /\
    r_economia_anual_liquida r
    == r_geracao_anual_estimada r * (95 # 100) - 12 * (100 * (95 # 100)) /\
    (r_economia_anual_liquida r < 0 <->
     r_geracao_anual_estimada r * (95 # 100) < 12 * (100 * (95 # 100))).
Proof.
  apply (economia_liquida_desconta_disponibilidade
           entradas_sem_geracao perfil_sem_geracao);
    reflexivity.
Defined.

(** ** C7: simple payback *)

(** C7: the simple payback is the installation cost over the net annual
    savings when the savings are positive, and infinite when they are
    [<= 0].  The savings it divides by are those of year 1, entry 1 of
    the cash flow, before any inflation or degradation; the figure is the
    same for every position of the inflation and TMA sliders.  A cost of
    20000 over savings of 2500 gives 8 years. *)
Theorem payback_simples_custo_sobre_economia (custo economia : Q) :
  (0 < economia -> payback_simples_anos custo economia = Anos (custo / economia)) /\
  (economia <= 0 -> payback_simples_anos custo economia = Infinito) /\
  (exists a, payback_simples_anos 20000 2500 = Anos a /\ a == 8) /\
  (forall (e : entradas) (df : list registro_mensal),
     r_payback_simples_anos (calcular e df)
     = payback_simples_anos (r_custo_estimado_sistema (calcular e df))
                            (r_economia_anual_liquida (calcular e df)) /\
     r_economia_anual_liquida (calcular e df) = nth 1 (r_fluxo_caixa (calcular e df)) 0 /\
     forall inflacao tma : Q,
       r_payback_simples_anos (calcular (com_financeiros e inflacao tma) df)
       = r_payback_simples_anos (calcular e df)).
Proof.
  split; [|split; [|split]].
  - intros Hpos. unfold payback_simples_anos. caso_gt economia 0; [reflexivity | lra].
  - intros Hle. unfold payback_simples_anos. caso_gt economia 0; [lra | reflexivity].
  - exists (20000 / 2500). split; reflexivity.
  - intros e df. split; [reflexivity|]. split.
    + unfold calcular; cbn [r_economia_anual_liquida r_fluxo_caixa].
      now rewrite fluxo_caixa_forma.
    + intros inflacao tma.
      unfold calcular; cbn [r_payback_simples_anos].
      unfold com_financeiros;
        cbn [consumo_mensal_kwh margem_geracao_percent custo_watt_pico_modulo
             custo_bos_watt_pico tarifa_energia tipo_conexao].
      reflexivity.
Qed.

Lemma payback_simples_custo_sobre_economia_witness :
  0 < 2500 /\ payback_simples_anos 20000 2500 = Anos (20000 / 2500) /\
  - (1140) <= 0 /\ payback_simples_anos 0 (- (1140)) = Infinito.
Proof.
  split; [reflexivity|]. split.
  - apply (payback_simples_custo_sobre_economia 20000 2500). reflexivity.
  - split; [discriminate|].
    apply (payback_simples_custo_sobre_economia 0 (- (1140))). discriminate.
Defined.

(** * Further properties of the script *)

(** ** The submit handler *)

(** X2: a place on the equator is reported as not found.  When the
    geocoder answers a latitude of 0 the test [if not lat] fails it, and
    the run ends in the coordinates error although the coordinates are
    there, whatever the longitude and the rest of the form. *)
Theorem latitude_zero_nao_encontrada (e : entradas) (lat lon : Q) :
  cidade_vazia (cidade e) || Qeq_bool (consumo_mensal_kwh e) 0 = false ->
  coordenadas e = Some (lat, lon) ->
  lat == 0 ->
  executar e = ErroCoordenadas.
Proof.
  intros Hform Hco Hlat. unfold executar. rewrite Hform, Hco.
  cbn [sem_latitude]. apply Qeq_bool_iff in Hlat. now rewrite Hlat.
Qed.

Lemma latitude_zero_nao_encontrada_witness :
  executar
    {| cidade := "Macapa, AP";
       consumo_mensal_kwh := 350;
       tarifa_energia := 95 # 100;
       custo_watt_pico_modulo := 12 # 10;
       custo_bos_watt_pico := 16 # 10;
       tipo_conexao := Trifasico;
       margem_geracao_percent := 15;
       inflacao_energia := 7;
       tma_percent := 10;
       coordenadas := Some (0, - (5107 # 100));
       pvgis_data := Some perfil_inverno_90 |}
  = ErroCoordenadas.
Proof.
  apply (latitude_zero_nao_encontrada _ 0 (- (5107 # 100))); reflexivity.
Defined.

(** ** Month labels *)

(** X3: a month has a label exactly when it is one of 1..12, and two
    months with the same label are the same month: every other key of
    [df['month']] is left without a label by [map]. *)
Theorem meses_pt_dominio :
  (forall m, (exists n, meses_pt m = Some n) <-> (1 <= m <= 12)%nat) /\
  (forall m1 m2 n, meses_pt m1 = Some n -> meses_pt m2 = Some n -> m1 = m2).
Proof.
  split.
  - intros m. split.
    + intros [n Hn]. destruct m as [|k]; [discriminate|].
      cbn [meses_pt] in Hn.
      assert (Hk : (k < length nomes_meses)%nat)
        by (apply nth_error_Some; congruence).
      cbn in Hk. lia.
    + intros Hm. destruct m as [|k]; [lia|]. cbn [meses_pt].
      destruct (nth_error nomes_meses k) as [n|] eqn:Hn; [now exists n|].
      apply nth_error_None in Hn. cbn in Hn. lia.
  - intros m1 m2 n H1 H2.
    destruct m1 as [|k1]; [discriminate|]. destruct m2 as [|k2]; [discriminate|].
    cbn [meses_pt] in H1, H2. f_equal.
    assert (Hnd : NoDup nomes_meses).
    { unfold nomes_meses.
      repeat (constructor; [cbn; intuition discriminate|]). constructor. }
    apply (proj1 (NoDup_nth_error nomes_meses) Hnd).
    + apply nth_error_Some. congruence.
    + congruence.
Qed.

(** ** Sums and minima of a series *)

Lemma serie_sum_escala (k : Q) (s : list Q) :
  serie_sum (map (fun x => x * k) s) == serie_sum s * k.
Proof.
  induction s as [|x xs IH]; cbn [map].
  - reflexivity.
  - rewrite !serie_sum_cons, IH. ring.
Qed.

Lemma serie_sum_minorante (a : Q) (s : list Q) :
  (forall x, In x s -> a <= x) ->
  inject_Z (Z.of_nat (length s)) * a <= serie_sum s.
Proof.
  induction s as [|x xs IH]; intros Hall.
  - change (0 * a <= 0). lra.
  - rewrite serie_sum_cons.
    assert (Hx : a <= x) by (apply Hall; now left).
    assert (Hxs : inject_Z (Z.of_nat (length xs)) * a <= serie_sum xs)
      by (apply IH; intros y Hy; apply Hall; now right).
    cbn [length].
    replace (Z.of_nat (S (length xs))) with (Z.of_nat (length xs) + 1)%Z by lia.
    rewrite inject_Z_plus. change (inject_Z 1) with 1. lra.
Qed.

Lemma serie_min_permutacao (s1 s2 : list Q) (m1 m2 : Q) :
  Permutation s1 s2 ->
  serie_min s1 = Some m1 -> serie_min s2 = Some m2 -> m1 == m2.
Proof.
  intros Hp H1 H2.
  destruct (serie_min_spec s1 m1 H1) as [Hin1 Hmin1].
  destruct (serie_min_spec s2 m2 H2) as [Hin2 Hmin2].
  apply Qle_antisym.
  - apply Hmin1. apply (Permutation_in _ (Permutation_sym Hp)). exact Hin2.
  - apply Hmin2. apply (Permutation_in _ Hp). exact Hin1.
Qed.

(** ** Sizing, generation and savings *)

(** Over a 12-month profile with a positive worst month the annual
    generation is at least 12 targets. *)
Lemma geracao_anual_minorante
    (df : list registro_mensal) (consumo margem pior : Q) :
  length df = 12%nat ->
  pior_mes_geracao_por_kwp df = Some pior ->
  0 < pior ->
  0 <= consumo * (1 + margem / 100) ->
  12 * (consumo * (1 + margem / 100))
  <= geracao_anual_estimada df (tamanho_sistema_kwp df consumo margem).
Proof.
  intros H12 Hpior Hpos Halvo.
  set (tamanho := tamanho_sistema_kwp _ _ _).
  unfold geracao_anual_estimada. rewrite <- serie_sum_escala.
  assert (Hlen : length (map (fun x => x * tamanho) (coluna_E_m df)) = 12%nat)
    by (unfold coluna_E_m; now rewrite !length_map).
  pose proof (serie_sum_minorante (consumo * (1 + margem / 100))
                (map (fun x => x * tamanho) (coluna_E_m df))) as Hsum.
  rewrite Hlen in Hsum. apply Hsum.
  intros g Hg. apply in_map_iff in Hg. destruct Hg as (x & <- & Hx).
  apply (geracao_mensal_cobre df _ _ pior Hpior Hpos Halvo x Hx).
Qed.

(** X7: the environmental figures.  Over a 12-month profile, for a
    consumption of at least 50 (the least the form admits) and a margin
    that is not negative, the CO2 avoided and the equivalent trees are
    never negative, and each is 0 exactly when the worst month is
    [<= 0]. *)
Theorem impacto_ambiental_sinal
    (e : entradas) (df : list registro_mensal) (pior : Q) :
  length df = 12%nat ->
  pior_mes_geracao_por_kwp df = Some pior ->
  50 <= consumo_mensal_kwh e ->
  0 <= margem_geracao_percent e ->
  0 <= r_co2_evitado_ton (calcular e df) /\
  0 <= r_arvores_equivalentes (calcular e df) /\
  (r_co2_evitado_ton (calcular e df) == 0 <-> pior <= 0) /\
  (r_arvores_equivalentes (calcular e df) == 0 <-> pior <= 0).
Proof.
  intros H12 Hpior Hc50 Hm.
  assert (Hc : 0 < consumo_mensal_kwh e) by lra.
  pose proof (consumo_desejado_pos _ _ Hc Hm) as Halvo.
  unfold calcular; cbn [r_co2_evitado_ton r_arvores_equivalentes].
  set (geracao := geracao_anual_estimada _ _).
  assert (Hco2 : co2_evitado_ton geracao == geracao * (11875 # 1000000))
    by (unfold co2_evitado_ton; field).
  assert (Harv : arvores_equivalentes (co2_evitado_ton geracao)
                 == geracao * (847875 # 10000000))
    by (unfold arvores_equivalentes; rewrite Hco2; field).
  rewrite Harv, Hco2.
  destruct (Qlt_le_dec 0 pior) as [Hpos|Hle].
  - assert (Hg : 12 * (consumo_mensal_kwh e * (1 + margem_geracao_percent e / 100))
                 <= geracao)
      by (apply (geracao_anual_minorante df _ _ pior H12 Hpior Hpos); lra).
    repeat split; try lra; intros H; lra.
  - assert (Hg : geracao == 0).
    { unfold geracao.
      rewrite (tamanho_pior_nao_positivo df _ _ pior Hpior Hle).
      unfold geracao_anual_estimada. ring. }
    rewrite Hg. repeat split; try lra; intros _; lra.
Qed.

Lemma impacto_ambiental_sinal_witness :
  0 <= r_co2_evitado_ton (calcular entradas_padrao perfil_inverno_90) /\
  0 <= r_arvores_equivalentes (calcular entradas_padrao perfil_inverno_90) /\
  (r_co2_evitado_ton (calcular entradas_padrao perfil_inverno_90) == 0 <-> 90 <= 0).
Proof.
  destruct (impacto_ambiental_sinal entradas_padrao perfil_inverno_90 90)
    as (H1 & H2 & H3 & _).
  - reflexivity.
  - reflexivity.
  - discriminate.
  - discriminate.
  - split; [exact H1|]. split; [exact H2 | exact H3].
Defined.

(** The size does not depend on the order of the rows. *)
Lemma tamanho_permutacao (df1 df2 : list registro_mensal) (consumo margem : Q) :
  Permutation df1 df2 ->
  tamanho_sistema_kwp df1 consumo margem == tamanho_sistema_kwp df2 consumo margem.
Proof.
  intros Hp.
  assert (Hcol : Permutation (coluna_E_m df1) (coluna_E_m df2))
    by (unfold coluna_E_m; now apply Permutation_map).
  unfold tamanho_sistema_kwp, pior_mes_geracao_por_kwp.
  destruct (serie_min (coluna_E_m df1)) as [m1|] eqn:H1;
    destruct (serie_min (coluna_E_m df2)) as [m2|] eqn:H2.
  - pose proof (serie_min_permutacao _ _ m1 m2 Hcol H1 H2) as Hm.
    caso_gt m1 0; caso_gt m2 0; try lra.
    rewrite Hm. reflexivity.
  - destruct (coluna_E_m df2) as [|y ys]; [|discriminate].
    apply Permutation_sym, Permutation_nil in Hcol.
    rewrite Hcol in H1. discriminate.
  - destruct (coluna_E_m df1) as [|y ys]; [|discriminate].
    apply Permutation_nil in Hcol. rewrite Hcol in H2. discriminate.
  - reflexivity.
Qed.

(** X8: the order of the monthly rows does not matter to the sizing.
    Two profiles with the same rows in another order have the same worst
    month, hence the same recommended size and the same installation
    cost. *)
Theorem ordem_dos_meses_irrelevante (e : entradas) (df1 df2 : list registro_mensal) :
  Permutation df1 df2 ->
  r_tamanho_sistema_kwp (calcular e df1) == r_tamanho_sistema_kwp (calcular e df2) /\
  r_custo_estimado_sistema (calcular e df1)
    == r_custo_estimado_sistema (calcular e df2).
Proof.
  intros Hp.
  pose proof (tamanho_permutacao df1 df2 (consumo_mensal_kwh e)
                (margem_geracao_percent e) Hp) as Ht.
  unfold calcular; cbn [r_tamanho_sistema_kwp r_custo_estimado_sistema].
  unfold custo_estimado_sistema.
  rewrite Ht. split; reflexivity.
Qed.

Lemma ordem_dos_meses_irrelevante_witness :
  r_tamanho_sistema_kwp (calcular entradas_padrao perfil_inverno_90)
  == r_tamanho_sistema_kwp (calcular entradas_padrao (rev perfil_inverno_90)).
Proof.
  apply (ordem_dos_meses_irrelevante entradas_padrao
           perfil_inverno_90 (rev perfil_inverno_90)).
  apply Permutation_rev.
Defined.

(** ** Discounting, year by year *)

Local Abbreviation termo_descontado rate :=
  (fun tv : nat * Q => snd tv / (1 + rate) ^ Z.of_nat (fst tv)).

Lemma serie_sum_um (x : Q) : serie_sum [x] == x.
Proof.
  rewrite serie_sum_cons. change (serie_sum []) with 0. ring.
Qed.

Lemma firstn_snoc (l : list Q) : forall t,
  (t < length l)%nat -> firstn (S t) l = firstn t l ++ [nth t l 0].
Proof.
  induction l as [|v vs IH]; intros t Ht; [cbn in Ht; lia|].
  destruct t as [|t]; [reflexivity|].
  cbn [length] in Ht.
  change (v :: firstn (S t) vs = v :: (firstn t vs ++ [nth t vs 0])).
  f_equal. apply IH. lia.
Qed.

Section Desconto.

Variable rate : Q.

Lemma termos_snoc (l : list Q) (x : Q) : forall a,
  map (termo_descontado rate) (combine (seq a (length (l ++ [x]))) (l ++ [x]))
  = map (termo_descontado rate) (combine (seq a (length l)) l)
    ++ [x / (1 + rate) ^ Z.of_nat (a + length l)].
Proof.
  induction l as [|v vs IH]; intros a.
  - cbn [app length seq combine map fst snd]. now rewrite Nat.add_0_r.
  - cbn [app length seq combine map]. rewrite IH.
    replace (S a + length vs)%nat with (a + S (length vs))%nat by lia.
    reflexivity.
Qed.

(** One more year adds its discounted entry. *)
Lemma npv_snoc (l : list Q) (x : Q) :
  npv rate (l ++ [x]) == npv rate l + x / (1 + rate) ^ Z.of_nat (length l).
Proof.
  unfold npv. rewrite termos_snoc, serie_sum_app, serie_sum_um.
  reflexivity.
Qed.

Lemma vpl_ano_zero (fluxo : list Q) :
  npv rate (firstn (0 + 1) fluxo) == nth 0 fluxo 0.
Proof.
  destruct fluxo as [|v vs]; [reflexivity|].
  change (firstn (0 + 1) (v :: vs)) with ([] ++ [v]).
  rewrite npv_snoc. change (npv rate []) with 0.
  change ((1 + rate) ^ Z.of_nat (length (@nil Q))) with 1.
  cbn [nth]. field.
Qed.

Lemma vpl_passo (fluxo : list Q) (t : nat) :
  (S t < length fluxo)%nat ->
  npv rate (firstn (S t + 1) fluxo)
  == npv rate (firstn (t + 1) fluxo)
     + nth (S t) fluxo 0 / (1 + rate) ^ Z.of_nat (S t).
Proof.
  intros Ht.
  replace (S t + 1)%nat with (S (S t)) by lia.
  replace (t + 1)%nat with (S t) by lia.
  rewrite (firstn_snoc fluxo (S t) Ht), npv_snoc.
  rewrite length_firstn, Nat.min_l by lia. reflexivity.
Qed.

Hypothesis Hrate : 0 < 1 + rate.

(** Entries that are not negative from year 1 on make the cumulative
    value grow with the year. *)
Lemma vpl_crescente (fluxo : list Q) :
  (forall k, (1 <= k < length fluxo)%nat -> 0 <= nth k fluxo 0) ->
  forall s t, (s <= t < length fluxo)%nat ->
    npv rate (firstn (s + 1) fluxo) <= npv rate (firstn (t + 1) fluxo).
Proof.
  intros Hpos s t. induction t as [|t IH]; intros Hst.
  - replace s with 0%nat by lia. apply Qle_refl.
  - destruct (Nat.eq_dec s (S t)) as [->|Hne]; [apply Qle_refl|].
    rewrite vpl_passo by lia.
    assert (H1 : npv rate (firstn (s + 1) fluxo) <= npv rate (firstn (t + 1) fluxo))
      by (apply IH; lia).
    assert (H2 : 0 <= nth (S t) fluxo 0 / (1 + rate) ^ Z.of_nat (S t)).
    { apply Qle_shift_div_l; [now apply Qpower_0_lt|].
      assert (0 <= nth (S t) fluxo 0) by (apply Hpos; lia). lra. }
    lra.
Qed.

(** Entries that are not positive from year 1 on make it shrink. *)
Lemma vpl_decrescente (fluxo : list Q) :
  (forall k, (1 <= k < length fluxo)%nat -> nth k fluxo 0 <= 0) ->
  forall s t, (s <= t < length fluxo)%nat ->
    npv rate (firstn (t + 1) fluxo) <= npv rate (firstn (s + 1) fluxo).
Proof.
  intros Hneg s t. induction t as [|t IH]; intros Hst.
  - replace s with 0%nat by lia. apply Qle_refl.
  - destruct (Nat.eq_dec s (S t)) as [->|Hne]; [apply Qle_refl|].
    rewrite vpl_passo by lia.
    assert (H1 : npv rate (firstn (t + 1) fluxo) <= npv rate (firstn (s + 1) fluxo))
      by (apply IH; lia).
    assert (H2 : nth (S t) fluxo 0 / (1 + rate) ^ Z.of_nat (S t) <= 0).
    { apply Qle_shift_div_r; [now apply Qpower_0_lt|].
      assert (nth (S t) fluxo 0 <= 0) by (apply Hneg; lia). lra. }
    lra.
Qed.

End Desconto.

(** The sign of the savings entries, in the weak form. *)
Lemma fluxo_economias_nao_negativas (custo economia inflacao : Q) :
  0 <= inflacao -> 0 <= economia ->
  forall k, (1 <= k < length (fluxo_caixa custo economia inflacao))%nat ->
    0 <= nth k (fluxo_caixa custo economia inflacao) 0.
Proof.
  intros Hi He k. rewrite fluxo_caixa_forma. cbn [length].
  rewrite progressao_length. intros Hk.
  destruct k as [|k]; [lia|]. cbn [nth].
  destruct (progressao_sinal inflacao 25 economia k (fator_anual_pos _ Hi) ltac:(lia))
    as (Hp & _ & Hz).
  destruct (Qle_lt_or_eq _ _ He) as [Hlt|Heq].
  - apply Qlt_le_weak. now apply Hp.
  - rewrite (Hz (Qeq_sym _ _ Heq)). apply Qle_refl.
Qed.

Lemma fluxo_economias_nao_positivas (custo economia inflacao : Q) :
  0 <= inflacao -> economia <= 0 ->
  forall k, (1 <= k < length (fluxo_caixa custo economia inflacao))%nat ->
    nth k (fluxo_caixa custo economia inflacao) 0 <= 0.
Proof.
  intros Hi He k. rewrite fluxo_caixa_forma. cbn [length].
  rewrite progressao_length. intros Hk.
  destruct k as [|k]; [lia|]. cbn [nth].
  destruct (progressao_sinal inflacao 25 economia k (fator_anual_pos _ Hi) ltac:(lia))
    as (_ & Hn & Hz).
  destruct (Qle_lt_or_eq _ _ He) as [Hlt|Heq].
  - apply Qlt_le_weak. now apply Hn.
  - rewrite (Hz Heq). apply Qle_refl.
Qed.

Lemma fluxo_caixa_length (custo economia inflacao : Q) :
  length (fluxo_caixa custo economia inflacao) = 26%nat.
Proof.
  rewrite fluxo_caixa_forma. cbn [length]. now rewrite progressao_length.
Qed.

(** The value of the whole series is the cumulative value of year 25. *)
Lemma vpl_e_ano_25 (tma custo economia inflacao : Q) :
  npv tma (firstn (25 + 1) (fluxo_caixa custo economia inflacao))
  = npv tma (fluxo_caixa custo economia inflacao).
Proof.
  pose proof (firstn_all (fluxo_caixa custo economia inflacao)) as H.
  rewrite fluxo_caixa_length in H.
  change (25 + 1)%nat with 26%nat. now rewrite H.
Qed.

(** X10: the column of the chart is a running total.  The 26 values of
    [vpl_anual] start at minus the installation cost, each year adds that
    year's entry discounted by [(1 + tma)^year], and the last value is
    the VPL of the page. *)
Theorem vpl_anual_acumula (e : entradas) (df : list registro_mensal) :
  let r := calcular e df in
  length (r_vpl_anual r) = 26%nat /\
  nth 0 (r_vpl_anual r) 0 == - r_custo_estimado_sistema r /\
  (forall t, (t < 25)%nat ->
     nth (S t) (r_vpl_anual r) 0
     == nth t (r_vpl_anual r) 0
        + nth (S t) (r_fluxo_caixa r) 0 / (1 + tma_percent e / 100) ^ Z.of_nat (S t)) /\
  nth 25 (r_vpl_anual r) 0 = r_vpl r.
Proof.
  unfold calcular;
    cbn [r_vpl_anual r_custo_estimado_sistema r_fluxo_caixa r_vpl].
  set (custo := custo_estimado_sistema _ _ _).
  set (economia := economia_anual_liquida _ _ _).
  set (tma := tma_percent e / 100).
  pose proof (fluxo_caixa_length custo economia (inflacao_energia e)) as Hlen.
  set (fluxo := fluxo_caixa custo economia (inflacao_energia e)) in *.
  split; [now rewrite vpl_anual_length|]. split; [|split].
  - rewrite vpl_anual_nth by lia. rewrite vpl_ano_zero.
    unfold fluxo. now rewrite fluxo_caixa_forma.
  - intros t Ht. rewrite !vpl_anual_nth by lia. apply vpl_passo. lia.
  - rewrite vpl_anual_nth by lia. apply vpl_e_ano_25.
Qed.

Lemma vpl_anual_acumula_witness :
  (0 < 25)%nat /\
  nth 1 (r_vpl_anual (calcular entradas_vpl_zero perfil_inverno_100)) 0
  == nth 0 (r_vpl_anual (calcular entradas_vpl_zero perfil_inverno_100)) 0
     + nth 1 (r_fluxo_caixa (calcular entradas_vpl_zero perfil_inverno_100)) 0
       / (1 + (125 # 10) / 100) ^ Z.of_nat 1.
Proof.
  split; [lia|].
  apply (vpl_anual_acumula entradas_vpl_zero perfil_inverno_100). lia.
Defined.

(** X11: the VPL message and the discounted payback agree.  For savings
    and an inflation that are not negative and a rate above -100%, the
    page says "Viável" under the VPL exactly when the discounted payback
    is reached within the 25 years. *)
Theorem veredito_vpl_e_payback (tma custo economia inflacao : Q) :
  -1 < tma ->
  0 <= inflacao ->
  0 <= economia ->
  veredito_vpl (npv tma (fluxo_caixa custo economia inflacao)) = Viavel <->
  exists t, payback_descontado_ano tma (fluxo_caixa custo economia inflacao)
            = Aproximadamente t.
Proof.
  intros Htma Hi He.
  assert (Hrate : 0 < 1 + tma) by lra.
  pose proof (fluxo_caixa_length custo economia inflacao) as Hlen.
  pose proof (payback_descontado_ano_spec tma (fluxo_caixa custo economia inflacao))
    as Hspec.
  pose proof (vpl_e_ano_25 tma custo economia inflacao) as H25.
  unfold veredito_vpl. split.
  - caso_gt (npv tma (fluxo_caixa custo economia inflacao)) 0; [intros _|discriminate].
    destruct (payback_descontado_ano tma (fluxo_caixa custo economia inflacao))
      as [|t]; [|now exists t].
    specialize (Hspec 25%nat ltac:(lia)). rewrite H25 in Hspec. lra.
  - intros [t Ht]. rewrite Ht in Hspec. destruct Hspec as (Hlt & Hpos & _).
    pose proof (vpl_crescente tma Hrate (fluxo_caixa custo economia inflacao)
                  (fluxo_economias_nao_negativas custo economia inflacao Hi He)
                  t 25%nat ltac:(lia)) as Hmono.
    rewrite H25 in Hmono.
    caso_gt (npv tma (fluxo_caixa custo economia inflacao)) 0; [reflexivity | lra].
Qed.

Lemma veredito_vpl_e_payback_witness :
  veredito_vpl (npv (125 # 1000) (fluxo_caixa 2000 2250 7)) = Viavel <->
  exists t, payback_descontado_ano (125 # 1000) (fluxo_caixa 2000 2250 7)
            = Aproximadamente t.
Proof.
  apply (veredito_vpl_e_payback (125 # 1000) 2000 2250 7).
  - reflexivity.
  - discriminate.
  - discriminate.
Defined.

(** X12: savings that are not positive never pay the system back.  For a
    cost and an inflation that are not negative and a rate above -100%,
    the simple payback is infinite, the discounted payback is "Não
    alcançado" and the VPL message is the warning. *)
Theorem sem_economia_nunca_se_paga (tma custo economia inflacao : Q) :
  -1 < tma ->
  0 <= inflacao ->
  0 <= custo ->
  economia <= 0 ->
  payback_simples_anos custo economia = Infinito /\
  payback_descontado_ano tma (fluxo_caixa custo economia inflacao) = NaoAlcancado /\
  veredito_vpl (npv tma (fluxo_caixa custo economia inflacao)) = Atencao.
Proof.
  intros Htma Hi Hc He.
  assert (Hrate : 0 < 1 + tma) by lra.
  pose proof (fluxo_caixa_length custo economia inflacao) as Hlen.
  assert (Hcum : forall t, (t < 26)%nat ->
            npv tma (firstn (t + 1) (fluxo_caixa custo economia inflacao)) <= 0).
  { intros t Ht.
    pose proof (vpl_decrescente tma Hrate (fluxo_caixa custo economia inflacao)
                  (fluxo_economias_nao_positivas custo economia inflacao Hi He)
                  0%nat t ltac:(lia)) as Hmono.
    rewrite vpl_ano_zero in Hmono. rewrite fluxo_caixa_forma in Hmono at 2.
    cbn [nth] in Hmono. lra. }
  split; [|split].
  - unfold payback_simples_anos. caso_gt economia 0; [lra | reflexivity].
  - pose proof (payback_descontado_ano_spec tma (fluxo_caixa custo economia inflacao))
      as Hspec.
    destruct (payback_descontado_ano tma (fluxo_caixa custo economia inflacao))
      as [|t]; [reflexivity|].
    destruct Hspec as (Hlt & Hpos & _).
    specialize (Hcum t ltac:(lia)). lra.
  - unfold veredito_vpl.
    specialize (Hcum 25%nat ltac:(lia)). rewrite vpl_e_ano_25 in Hcum.
    caso_gt (npv tma (fluxo_caixa custo economia inflacao)) 0; [lra | reflexivity].
Qed.

Lemma sem_economia_nunca_se_paga_witness :
  payback_simples_anos 0 (- (1140)) = Infinito /\
  payback_descontado_ano (10 # 100) (fluxo_caixa 0 (- (1140)) 7) = NaoAlcancado /\
  veredito_vpl (npv (10 # 100) (fluxo_caixa 0 (- (1140)) 7)) = Atencao.
Proof.
  apply (sem_economia_nunca_se_paga (10 # 100) 0 (- (1140)) 7).
  - reflexivity.
  - discriminate.
  - discriminate.
  - discriminate.
Defined.

(** X13: the discounted payback is never year 0.  For a consumption, a
    margin and unit costs that are not negative the installation cost is
    not negative, so year 0 has no positive value and the page never
    shows "~0 anos", whatever the rate. *)
Theorem payback_descontado_nunca_ano_zero (e : entradas) (df : list registro_mensal) :
  0 <= consumo_mensal_kwh e ->
  0 <= margem_geracao_percent e ->
  0 <= custo_watt_pico_modulo e + custo_bos_watt_pico e ->
  0 <= r_custo_estimado_sistema (calcular e df) /\
  r_payback_descontado_ano (calcular e df) <> Aproximadamente 0.
Proof.
  intros Hc Hm Hu.
  pose proof (tamanho_nao_negativo df _ _ (consumo_desejado_nonneg _ _ Hc Hm)) as Ht.
  unfold calcular; cbn [r_custo_estimado_sistema r_payback_descontado_ano].
  set (tamanho := tamanho_sistema_kwp _ _ _) in *.
  assert (Hcusto : 0 <= custo_estimado_sistema tamanho (custo_watt_pico_modulo e)
                          (custo_bos_watt_pico e)).
  { unfold custo_estimado_sistema, custo_total_watt_pico. nra. }
  split; [exact Hcusto|].
  set (custo := custo_estimado_sistema _ _ _) in *.
  set (economia := economia_anual_liquida _ _ _).
  intros Hp.
  pose proof (payback_descontado_ano_spec (tma_percent e / 100)
                (fluxo_caixa custo economia (inflacao_energia e))) as Hspec.
  rewrite Hp in Hspec. destruct Hspec as (_ & Hpos & _).
  rewrite vpl_ano_zero, fluxo_caixa_forma in Hpos. cbn [nth] in Hpos. lra.
Qed.

Lemma payback_descontado_nunca_ano_zero_witness :
  0 <= r_custo_estimado_sistema (calcular entradas_padrao perfil_inverno_90) /\
  r_payback_descontado_ano (calcular entradas_padrao perfil_inverno_90)
  <> Aproximadamente 0.
Proof.
  apply (payback_descontado_nunca_ano_zero entradas_padrao perfil_inverno_90);
    discriminate.
Defined.

(** ** The rate and the inflation *)

Lemma potencia_monotona (a b : Q) (n : nat) :
  0 < a -> a <= b -> 0 < a ^ Z.of_nat n /\ a ^ Z.of_nat n <= b ^ Z.of_nat n.
Proof.
  intros Ha Hab. induction n as [|n [IHpos IHle]].
  - split; [reflexivity | apply Qle_refl].
  - replace (Z.of_nat (S n)) with (Z.of_nat n + 1)%Z by lia.
    rewrite !Qpower_plus' by lia.
    change (a ^ 1) with a. change (b ^ 1) with b.
    split; nra.
Qed.

(** Discounting entries that are not negative at a higher rate gives no
    more, term by term and hence in sum. *)
Lemma termos_taxa_monotona (r1 r2 : Q) (l : list Q) : forall a,
  0 < 1 + r1 -> r1 <= r2 ->
  (forall v, In v l -> 0 <= v) ->
  serie_sum (map (termo_descontado r2) (combine (seq a (length l)) l))
  <= serie_sum (map (termo_descontado r1) (combine (seq a (length l)) l)).
Proof.
  induction l as [|v vs IH]; intros a H1 H12 Hpos.
  - apply Qle_refl.
  - cbn [length seq combine map fst snd]. rewrite !serie_sum_cons.
    assert (Hv : 0 <= v) by (apply Hpos; now left).
    assert (Hvs : forall w, In w vs -> 0 <= w) by (intros w Hw; apply Hpos; now right).
    specialize (IH (S a) H1 H12 Hvs).
    destruct (potencia_monotona (1 + r1) (1 + r2) a H1 ltac:(lra)) as [HA HAB].
    set (A := (1 + r1) ^ Z.of_nat a) in *. set (B := (1 + r2) ^ Z.of_nat a) in *.
    assert (HB : 0 < B) by lra.
    assert (Hterm : v / B <= v / A).
    { apply Qle_shift_div_l; [exact HA|].
      assert (Hq : 0 <= v / B) by (apply Qle_shift_div_l; [exact HB | lra]).
      assert (Hqb : v / B * B == v) by (field; lra).
      nra. }
    lra.
Qed.

(** X14: a higher rate never raises the VPL.  For savings and an
    inflation that are not negative, and rates above -100%, the VPL at
    the higher of two rates is at most the VPL at the lower one. *)
Theorem vpl_decresce_com_a_taxa (r1 r2 custo economia inflacao : Q) :
  -1 < r1 ->
  r1 <= r2 ->
  0 <= inflacao ->
  0 <= economia ->
  npv r2 (fluxo_caixa custo economia inflacao)
  <= npv r1 (fluxo_caixa custo economia inflacao).
Proof.
  intros H1 H12 Hi He.
  pose proof (fluxo_economias_nao_negativas custo economia inflacao Hi He) as Hpos.
  rewrite fluxo_caixa_length in Hpos.
  rewrite fluxo_caixa_forma in *.
  set (economias := progressao economia (fator_anual inflacao) 25) in *.
  assert (Hlen : length economias = 25%nat) by apply progressao_length.
  assert (Hall : forall v, In v economias -> 0 <= v).
  { intros v Hv. destruct (In_nth _ _ 0 Hv) as (k & Hk & <-).
    apply (Hpos (S k)). lia. }
  unfold npv. cbn [length seq combine map fst snd]. rewrite !serie_sum_cons.
  pose proof (termos_taxa_monotona r1 r2 economias 1%nat ltac:(lra) H12 Hall) as Hs.
  change ((1 + r2) ^ Z.of_nat 0) with 1. change ((1 + r1) ^ Z.of_nat 0) with 1.
  lra.
Qed.

Lemma vpl_decresce_com_a_taxa_witness :
  npv (20 # 100) (fluxo_caixa 2000 2250 7) <= npv (1 # 100) (fluxo_caixa 2000 2250 7).
Proof.
  apply (vpl_decresce_com_a_taxa (1 # 100) (20 # 100) 2000 2250 7).
  - reflexivity.
  - discriminate.
  - discriminate.
  - discriminate.
Defined.

(** X15: for every inflation the slider admits (1% or more) positive
    savings grow from each year to the next: the yearly factor is above
    1, so degradation never outweighs inflation. *)
Theorem economias_crescem (custo economia inflacao : Q) :
  1 <= inflacao ->
  0 < economia ->
  1 < (1 + inflacao / 100) * (1 - degradacao_paineis_anual) /\
  forall k, (1 <= k <= 24)%nat ->
    nth k (fluxo_caixa custo economia inflacao) 0
    < nth (k + 1) (fluxo_caixa custo economia inflacao) 0.
Proof.
  intros Hi He.
  assert (Hf : 1 < fator_anual inflacao).
  { unfold fator_anual, degradacao_paineis_anual.
    assert (1 # 100 <= inflacao / 100) by (apply Qle_shift_div_l; lra).
    assert (H2 : 1 - (5 # 1000) == 995 # 1000) by reflexivity.
    rewrite H2. lra. }
  split; [exact Hf|].
  intros k Hk. rewrite fluxo_caixa_forma.
  destruct k as [|k]; [lia|].
  change (nth k (progressao economia (fator_anual inflacao) 25) 0
          < nth (k + 1) (progressao economia (fator_anual inflacao) 25) 0).
  rewrite progressao_passo by lia.
  destruct (progressao_sinal inflacao 25 economia k ltac:(lra) ltac:(lia))
    as (Hp & _ & _).
  specialize (Hp He). nra.
Qed.

Lemma economias_crescem_witness :
  1 <= 7 /\ 0 < 2250 /\
  nth 24 (fluxo_caixa 2000 2250 7) 0 < nth (24 + 1) (fluxo_caixa 2000 2250 7) 0.
Proof.
  assert (Hi : 1 <= 7) by discriminate.
  assert (He : 0 < 2250) by reflexivity.
  split; [exact Hi|]. split; [exact He|].
  apply (economias_crescem 2000 2250 7 Hi He). lia.
Defined.

(** ** The two paybacks *)

(** When the savings grow no faster than the rate discounts them, no
    discounted year is worth more than the first year's savings. *)
Lemma economia_descontada_limitada (tma economia f : Q) (k : nat) :
  0 <= tma -> 0 < f -> f <= 1 + tma -> 0 < economia -> (k < 25)%nat ->
  nth k (progressao economia f 25) 0 / (1 + tma) ^ Z.of_nat (S k) <= economia.
Proof.
  intros Ht Hf Hft He Hk.
  rewrite (progressao_potencia f 25 economia k Hk).
  destruct (potencia_monotona f (1 + tma) k Hf Hft) as [Hfk Hle].
  assert (Hpk : (1 + tma) ^ Z.of_nat (S k) == (1 + tma) ^ Z.of_nat k * (1 + tma)).
  { replace (Z.of_nat (S k)) with (Z.of_nat k + 1)%Z by lia.
    rewrite Qpower_plus' by lia. reflexivity. }
  rewrite Hpk.
  set (A := f ^ Z.of_nat k) in *. set (B := (1 + tma) ^ Z.of_nat k) in *.
  assert (HB : 0 < B) by lra.
  assert (H1 : 0 < 1 + tma) by lra.
  assert (HB1 : 0 < B * (1 + tma)) by now apply Qmult_lt_0_compat.
  assert (HBB : B <= B * (1 + tma)) by nra.
  apply Qle_shift_div_r; [exact HB1|].
  assert (HAB : A <= B * (1 + tma)) by lra.
  nra.
Qed.

Lemma vpl_acumulado_limitado (tma custo economia inflacao : Q) :
  0 <= tma -> 0 <= inflacao -> fator_anual inflacao <= 1 + tma -> 0 < economia ->
  forall t, (t < 26)%nat ->
    npv tma (firstn (t + 1) (fluxo_caixa custo economia inflacao))
    <= - custo + inject_Z (Z.of_nat t) * economia.
Proof.
  intros Ht Hi Hft He t. induction t as [|t IH]; intros Hlt.
  - rewrite vpl_ano_zero, fluxo_caixa_forma. cbn [nth].
    change (inject_Z (Z.of_nat 0)) with 0. lra.
  - rewrite vpl_passo by (rewrite fluxo_caixa_length; lia).
    specialize (IH ltac:(lia)).
    assert (Hterm : nth (S t) (fluxo_caixa custo economia inflacao) 0
                    / (1 + tma) ^ Z.of_nat (S t) <= economia).
    { rewrite fluxo_caixa_forma. cbn [nth].
      apply economia_descontada_limitada;
        [exact Ht | now apply fator_anual_pos | exact Hft | exact He | lia]. }
    replace (Z.of_nat (S t)) with (Z.of_nat t + 1)%Z at 2 by lia.
    rewrite inject_Z_plus. change (inject_Z 1) with 1. lra.
Qed.

(** X16: the discounted payback comes after the simple one.  For positive
    savings, a rate and an inflation that are not negative, and a yearly
    growth factor of the savings that does not exceed [1 + tma], a
    discounted payback reported at year [t] means the simple payback is a
    number of years strictly below [t]. *)
Theorem payback_descontado_depois_do_simples
    (tma custo economia inflacao : Q) (t : nat) :
  0 <= tma ->
  0 <= inflacao ->
  0 < economia ->
  (1 + inflacao / 100) * (1 - degradacao_paineis_anual) <= 1 + tma ->
  payback_descontado_ano tma (fluxo_caixa custo economia inflacao)
  = Aproximadamente t ->
  exists a, payback_simples_anos custo economia = Anos a /\
            a < inject_Z (Z.of_nat t).
Proof.
  intros Ht Hi He Hft Hp.
  exists (custo / economia). split.
  - unfold payback_simples_anos. caso_gt economia 0; [reflexivity | lra].
  - pose proof (payback_descontado_ano_spec tma (fluxo_caixa custo economia inflacao))
      as Hspec.
    rewrite Hp, fluxo_caixa_length in Hspec. destruct Hspec as (Hlt & Hpos & _).
    pose proof (vpl_acumulado_limitado tma custo economia inflacao Ht Hi Hft He t Hlt)
      as Hlim.
    apply Qlt_shift_div_r; [exact He | lra].
Qed.

Lemma payback_descontado_depois_do_simples_witness :
  exists a, payback_simples_anos 2000 2250 = Anos a /\ a < inject_Z (Z.of_nat 2).
Proof.
  apply (payback_descontado_depois_do_simples (125 # 1000) 2000 2250 7 2).
  - discriminate.
  - discriminate.
  - reflexivity.
  - discriminate.
  - lazy. reflexivity.
Defined.
